(** * instructor.dsl.parallel: decoding parallel tool calls

    A shallow embedding of [src/instructor/dsl/parallel.py]:
    - [get_types_array], which reads the candidate types off a typehint
      [Iterable[Union[T1, ..., Tn]]];
    - [ParallelBase.__init__], which builds the name-indexed registry;
    - [ParallelBase.from_response], a generator function, modelled by the
      generator object it returns and the [next] step on that object. *)

From stdpp Require Import base option list strings gmap fin_maps.

Open Scope string_scope.
#[local] Set Warnings "-clear-no-such-hyp".

(** ** Exceptions

    The exceptions the module can raise.  [ValidationError] is pydantic's: it
    carries a title (the name of the model that rejected the payload) and the
    underlying causes. *)

Record ValidationErrorData := mkValidationError {
  title : string;
  errors : list string
}.

Inductive exn :=
| AssertionError (msg : string)
| TypeError (msg : string)
| IndexError (msg : string)
| KeyError (key : string)
| ValidationError (e : ValidationErrorData).

(** A call either returns a value or raises. *)
Definition result (A : Type) := (exn + A)%type.
Definition ret {A} (a : A) : result A := inr a.
Definition raise {A} (e : exn) : result A := inl e.

Definition bind {A B} (r : result A) (k : A -> result B) : result B :=
  match r with
  | inl e => inl e
  | inr a => k a
  end.

Notation "'let*' x ':=' r 'in' k" := (bind r (fun x => k))
  (at level 10, x name, r at level 100, k at level 200).

(** [t[i]] on a tuple or a list. *)
Definition getitem {A} (l : list A) (i : nat) (msg : string) : result A :=
  match l !! i with
  | Some a => ret a
  | None => raise (IndexError msg)
  end.

(** ** Typehints

    What [typing.get_origin] and [typing.get_args] see of a typehint object.
    A plain class ([int], a model class) has no origin and no arguments.  A
    generic alias has an [__origin__] and a tuple [__args__]; the
    unsubscripted alias [typing.Iterable] has the origin
    [collections.abc.Iterable] and an empty [__args__]. *)

Inductive origin :=
| Iterable                      (* collections.abc.Iterable *)
| Union                         (* typing.Union *)
| UnionType                     (* types.UnionType, the origin of [X | Y] *)
| OtherOrigin (name : string).  (* list, dict, tuple, ... *)

#[local] Set Warnings "-register-all".
Inductive pytype :=
| Class (name : string)
| Generic (o : origin) (args : list pytype).

Global Instance origin_eq_dec : EqDecision origin.
Proof. solve_decision. Defined.

Definition get_origin (tp : pytype) : option origin :=
  match tp with
  | Class _ => None
  | Generic o _ => Some o
  end.

Definition get_args (tp : pytype) : list pytype :=
  match tp with
  | Class _ => []
  | Generic _ args => args
  end.

Module TypeSetExtractor.
Section Extractor.

(** [format] is how the f-string renders a typehint in the error message. *)
Variable format : pytype -> string.

Definition invalid_shape_message (typehint : pytype) : string :=
  "Model should be with Iterable instead if " ++ format typehint.

(** [get_args(typehint)[0]] is read by both union tests; it is bound once
    here, the first reading being the one that can raise. *)
Definition get_types_array (typehint : pytype) : result (list pytype) :=
  let should_be_iterable := get_origin typehint in
  if decide (should_be_iterable <> Some Iterable) then
    raise (TypeError (invalid_shape_message typehint))
  else
    let* arg0 := getitem (get_args typehint) 0 "tuple index out of range" in
    if decide (get_origin arg0 = Some Union) then
      (* works for Iterable[Union[int, str]] *)
      let the_types := get_args arg0 in
      ret the_types
    else if decide (get_origin arg0 = Some UnionType) then
      let the_types := get_args arg0 in
      ret the_types
    else
      (* works for Iterable[int] *)
      ret (get_args typehint).

End Extractor.
End TypeSetExtractor.

(** ** The registry and the decoder *)

(** Modelled from the spec: the [Mode] enumeration is declared in
    [instructor.function_calls], which is not part of this file.  Only the
    parallel-calls member is named by the code; every other value a caller
    can pass is kept by its tag. *)
Inductive Mode :=
| PARALLEL_TOOLS
| OtherMode (tag : string).

Global Instance Mode_eq_dec : EqDecision Mode.
Proof. solve_decision. Defined.

(** The response as the decoder reads it:
    [response.choices[0].message.tool_calls[i].function.{name, arguments}]. *)
Record FunctionCall := mkFunctionCall { name : string; arguments : string }.
Record ToolCall := mkToolCall { function : FunctionCall }.
Record Message := mkMessage { tool_calls : list ToolCall }.
Record Choice := mkChoice { message : Message }.
Record Response := mkResponse { choices : list Choice }.

Module Parallel.
Section Decoder.

(** [Ctx] is the type of validation contexts ([Any] in the source), [Inst]
    the type of validated instances ([BaseModel]). *)
Variables Ctx Inst : Type.

(** A candidate type, as far as this module uses one: its [__name__] and
    its [model_validate_json] class method, which returns the validated
    instance or raises pydantic's [ValidationError]. *)
Record Model := mkModel {
  __name__ : string;
  model_validate_json :
    string -> option Ctx -> option bool -> ValidationErrorData + Inst
}.

Record ParallelBase := mkParallelBase {
  models : list Model;
  registry : gmap string Model
}.

(** [{model.__name__: model for model in models}]: a later model replaces
    an earlier one stored under the same key. *)
Definition dict_of_models (models : list Model) : gmap string Model :=
  foldl (fun d model => <[__name__ model := model]> d) ∅ models.

Definition __init__ (models : list Model) : result ParallelBase :=
  if decide (0 < length models) then
    ret {| models := models; registry := dict_of_models models |}
  else
    raise (AssertionError "At least one model is required").

(** *** [from_response]

    [from_response] has a [yield] in its body, so it is a generator
    function: calling it runs none of the body and returns a generator
    object.  The body runs when the consumer advances the generator. *)

(** Where the body of a generator stands: not started, suspended at the
    [yield] with the calls the [for] loop has still to visit, or finished
    (returned or raised). *)
Inductive frame :=
| Created
| Suspended (rest : list ToolCall)
| Closed.

Record generator := mkGenerator {
  gi_self : ParallelBase;
  gi_response : Response;
  gi_mode : Mode;
  gi_validation_context : option Ctx;
  gi_strict : option bool;
  gi_frame : frame
}.

Definition from_response (self : ParallelBase) (response : Response)
    (mode : Mode) (validation_context : option Ctx) (strict : option bool)
    : result generator :=
  ret {| gi_self := self; gi_response := response; gi_mode := mode;
         gi_validation_context := validation_context; gi_strict := strict;
         gi_frame := Created |}.

(** What one advance of a generator gives its consumer. *)
Inductive signal :=
| Yield (v : Inst)
| StopIteration
| Raise (e : exn).

(** [response.choices[0].message.tool_calls] *)
Definition response_tool_calls (response : Response) : result (list ToolCall) :=
  let* choice := getitem (choices response) 0 "list index out of range" in
  ret (tool_calls (message choice)).

(** [self.registry[name]] *)
Definition registry_getitem (self : ParallelBase) (name : string) : result Model :=
  match registry self !! name with
  | Some model => ret model
  | None => raise (KeyError name)
  end.

(** One turn of the [for] loop, from the loop head to the [yield]. *)
Definition loop (self : ParallelBase) (validation_context : option Ctx)
    (strict : option bool) (rest : list ToolCall) : signal * frame :=
  match rest with
  | [] => (StopIteration, Closed)
  | tool_call :: rest' =>
      let name := name (function tool_call) in
      let arguments := arguments (function tool_call) in
      match registry_getitem self name with
      | inl e => (Raise e, Closed)
      | inr model =>
          match model_validate_json model arguments validation_context strict with
          | inl e => (Raise (ValidationError e), Closed)
          | inr v => (Yield v, Suspended rest')
          end
      end
  end.

(** Run the body from where it stands to its next [yield], return or
    raise. *)
Definition resume (g : generator) : signal * frame :=
  match gi_frame g with
  | Created =>
      if decide (gi_mode g = PARALLEL_TOOLS) then
        match response_tool_calls (gi_response g) with
        | inl e => (Raise e, Closed)
        | inr calls =>
            loop (gi_self g) (gi_validation_context g) (gi_strict g) calls
        end
      else (Raise (AssertionError "Mode must be PARALLEL_TOOLS"), Closed)
  | Suspended rest =>
      loop (gi_self g) (gi_validation_context g) (gi_strict g) rest
  | Closed => (StopIteration, Closed)
  end.

Definition set_frame (g : generator) (f : frame) : generator :=
  {| gi_self := gi_self g; gi_response := gi_response g;
     gi_mode := gi_mode g;
     gi_validation_context := gi_validation_context g;
     gi_strict := gi_strict g; gi_frame := f |}.

(** [next(g)] *)
Definition next (g : generator) : signal * generator :=
  let '(s, f) := resume g in (s, set_frame g f).

(** How a consumer's reading ended, if it did. *)
Inductive ending :=
| Exhausted
| Failed (e : exn).

(** A consumer that asks for at most [m] elements and stops at the first
    advance that does not yield: the instances it received, how the
    sequence ended (if it did within the [m] advances), and the generator
    it is left with. *)
Fixpoint consume (m : nat) (g : generator)
    : list Inst * option ending * generator :=
  match m with
  | 0 => ([], None, g)
  | S m' =>
      match next g with
      | (Yield v, g') =>
          let '(vs, e, g'') := consume m' g' in (v :: vs, e, g'')
      | (StopIteration, g') => ([], Some Exhausted, g')
      | (Raise e, g') => ([], Some (Failed e), g')
      end
  end.

End Decoder.

Arguments __name__ {Ctx Inst} _.
Arguments model_validate_json {Ctx Inst} _ _ _ _.
Arguments mkModel {Ctx Inst} _ _.
Arguments models {Ctx Inst} _.
Arguments registry {Ctx Inst} _.
Arguments mkParallelBase {Ctx Inst} _ _.
Arguments dict_of_models {Ctx Inst} _.
Arguments __init__ {Ctx Inst} _.
Arguments mkGenerator {Ctx Inst} _ _ _ _ _ _.
Arguments gi_self {Ctx Inst} _.
Arguments gi_response {Ctx Inst} _.
Arguments gi_mode {Ctx Inst} _.
Arguments gi_validation_context {Ctx Inst} _.
Arguments gi_strict {Ctx Inst} _.
Arguments gi_frame {Ctx Inst} _.
Arguments from_response {Ctx Inst} _ _ _ _ _.
Arguments Yield {Inst} _.
Arguments StopIteration {Inst}.
Arguments Raise {Inst} _.
Arguments registry_getitem {Ctx Inst} _ _.
Arguments loop {Ctx Inst} _ _ _ _.
Arguments resume {Ctx Inst} _.
Arguments set_frame {Ctx Inst} _ _.
Arguments next {Ctx Inst} _.
Arguments consume {Ctx Inst} _ _.

End Parallel.

Import TypeSetExtractor Parallel.

(** ** The decoder with validation that has effects

    [model_validate_json] runs the validators of the candidate type, which
    are code of the caller: they can read and change the state of the
    program (a counter, a cache, the validation context object).  Here that
    state, [W], is passed through every validation; the decoder is the one
    above in every other respect. *)

Module Effectful.
Section Decoder.

Variables Ctx Inst W : Type.

Record Model := mkModel {
  __name__ : string;
  model_validate_json :
    string -> option Ctx -> option bool -> W -> (ValidationErrorData + Inst) * W
}.

Record ParallelBase := mkParallelBase {
  models : list Model;
  registry : gmap string Model
}.

Record generator := mkGenerator {
  gi_self : ParallelBase;
  gi_response : Response;
  gi_mode : Mode;
  gi_validation_context : option Ctx;
  gi_strict : option bool;
  gi_frame : frame
}.

Definition from_response (self : ParallelBase) (response : Response)
    (mode : Mode) (validation_context : option Ctx) (strict : option bool)
    : result generator :=
  ret {| gi_self := self; gi_response := response; gi_mode := mode;
         gi_validation_context := validation_context; gi_strict := strict;
         gi_frame := Created |}.

(** [self.registry[name]] *)
Definition registry_getitem (self : ParallelBase) (name : string) : result Model :=
  match registry self !! name with
  | Some model => ret model
  | None => raise (KeyError name)
  end.

(** One turn of the [for] loop, from the loop head to the [yield]. *)
Definition loop (self : ParallelBase) (validation_context : option Ctx)
    (strict : option bool) (rest : list ToolCall) (w : W)
    : signal Inst * frame * W :=
  match rest with
  | [] => (StopIteration, Closed, w)
  | tool_call :: rest' =>
      let name := name (function tool_call) in
      let arguments := arguments (function tool_call) in
      match registry_getitem self name with
      | inl e => (Raise e, Closed, w)
      | inr model =>
          match model_validate_json model arguments validation_context strict w
          with
          | (inl e, w') => (Raise (ValidationError e), Closed, w')
          | (inr v, w') => (Yield v, Suspended rest', w')
          end
      end
  end.

Definition resume (g : generator) (w : W) : signal Inst * frame * W :=
  match gi_frame g with
  | Created =>
      if decide (gi_mode g = PARALLEL_TOOLS) then
        match response_tool_calls (gi_response g) with
        | inl e => (Raise e, Closed, w)
        | inr calls =>
            loop (gi_self g) (gi_validation_context g) (gi_strict g) calls w
        end
      else (Raise (AssertionError "Mode must be PARALLEL_TOOLS"), Closed, w)
  | Suspended rest =>
      loop (gi_self g) (gi_validation_context g) (gi_strict g) rest w
  | Closed => (StopIteration, Closed, w)
  end.

Definition set_frame (g : generator) (f : frame) : generator :=
  {| gi_self := gi_self g; gi_response := gi_response g;
     gi_mode := gi_mode g;
     gi_validation_context := gi_validation_context g;
     gi_strict := gi_strict g; gi_frame := f |}.

(** [next(g)] *)
Definition next (g : generator) (w : W) : signal Inst * generator * W :=
  let '(s, f, w') := resume g w in (s, set_frame g f, w').

(** A consumer that asks for at most [m] elements, as above; the last
    component is the state the program is left in. *)
Fixpoint consume (m : nat) (g : generator) (w : W)
    : list Inst * option ending * generator * W :=
  match m with
  | 0 => ([], None, g, w)
  | S m' =>
      match next g w with
      | (Yield v, g', w') =>
          let '(vs, e, g'', w'') := consume m' g' w' in (v :: vs, e, g'', w'')
      | (StopIteration, g', w') => ([], Some Exhausted, g', w')
      | (Raise e, g', w') => ([], Some (Failed e), g', w')
      end
  end.

Definition received (r : list Inst * option ending * generator * W)
    : list Inst := r.1.1.1.
Definition ended (r : list Inst * option ending * generator * W)
    : option ending := r.1.1.2.
Definition world (r : list Inst * option ending * generator * W) : W := r.2.

(** The validation of every registered type gives a result that depends
    only on the payload, the context and the strictness it is given, not on
    the state it runs in (which it may still change). *)
Definition state_independent (self : ParallelBase) : Prop :=
  forall n model, registry self !! n = Some model ->
    forall payload context strict w1 w2,
      (model_validate_json model payload context strict w1).1
      = (model_validate_json model payload context strict w2).1.

(** A candidate type without effects, and a registry and a generator of
    such types, seen here. *)
Definition pure_model (m : Parallel.Model Ctx Inst) : Model :=
  {| __name__ := Parallel.__name__ m;
     model_validate_json := fun payload context strict w =>
       (Parallel.model_validate_json m payload context strict, w) |}.

Definition pure_base (self : Parallel.ParallelBase Ctx Inst) : ParallelBase :=
  {| models := pure_model <$> Parallel.models self;
     registry := pure_model <$> Parallel.registry self |}.

Definition pure_generator (g : Parallel.generator Ctx Inst) : generator :=
  {| gi_self := pure_base (Parallel.gi_self g);
     gi_response := Parallel.gi_response g;
     gi_mode := Parallel.gi_mode g;
     gi_validation_context := Parallel.gi_validation_context g;
     gi_strict := Parallel.gi_strict g;
     gi_frame := Parallel.gi_frame g |}.

End Decoder.

Arguments __name__ {Ctx Inst W} _.
Arguments model_validate_json {Ctx Inst W} _ _ _ _ _.
Arguments mkModel {Ctx Inst W} _ _.
Arguments models {Ctx Inst W} _.
Arguments registry {Ctx Inst W} _.
Arguments mkParallelBase {Ctx Inst W} _ _.
Arguments mkGenerator {Ctx Inst W} _ _ _ _ _ _.
Arguments gi_self {Ctx Inst W} _.
Arguments gi_response {Ctx Inst W} _.
Arguments gi_mode {Ctx Inst W} _.
Arguments gi_validation_context {Ctx Inst W} _.
Arguments gi_strict {Ctx Inst W} _.
Arguments gi_frame {Ctx Inst W} _.
Arguments from_response {Ctx Inst W} _ _ _ _ _.
Arguments registry_getitem {Ctx Inst W} _ _.
Arguments loop {Ctx Inst W} _ _ _ _ _.
Arguments resume {Ctx Inst W} _ _.
Arguments set_frame {Ctx Inst W} _ _.
Arguments next {Ctx Inst W} _ _.
Arguments consume {Ctx Inst W} _ _ _.
Arguments received {Ctx Inst W} _.
Arguments ended {Ctx Inst W} _.
Arguments world {Ctx Inst W} _.
Arguments state_independent {Ctx Inst W} _.
Arguments pure_model {Ctx Inst} W _.
Arguments pure_base {Ctx Inst} W _.
Arguments pure_generator {Ctx Inst} W _.

End Effectful.

(** ** Specification vocabulary *)

(** Call [c] decodes to [v]: its name is a key of the registry, and the model
    stored there validates its payload, under the given context and
    strictness, into [v]. *)
Definition decodes {Ctx Inst} (self : ParallelBase Ctx Inst)
    (validation_context : option Ctx) (strict : option bool)
    (c : ToolCall) (v : Inst) : Prop :=
  exists model,
    registry self !! name (function c) = Some model /\
    model_validate_json model (arguments (function c)) validation_context strict
      = inr v.

(** The instances a consumer received. *)
Definition received {Ctx Inst}
    (r : list Inst * option ending * generator Ctx Inst) : list Inst :=
  r.1.1.

(** The two ways of writing a union: [typing.Union[...]] and the [|]
    operator. *)
Inductive union_syntax := TypingUnion | BarOperator.

Definition union_origin (s : union_syntax) : origin :=
  match s with
  | TypingUnion => Union
  | BarOperator => UnionType
  end.

(** [Iterable[X]] and a union of the given members. *)
Definition iterable_of (X : pytype) : pytype := Generic Iterable [X].
Definition union_of (s : union_syntax) (members : list pytype) : pytype :=
  Generic (union_origin s) members.

Definition is_union (tp : pytype) : bool :=
  bool_decide (get_origin tp = Some Union \/ get_origin tp = Some UnionType).

(** How the consumer's reading ended, if it did. *)
Definition ended {Ctx Inst}
    (r : list Inst * option ending * generator Ctx Inst) : option ending :=
  r.1.2.

(** The generator [g], created over [calls], as it stands once it has
    yielded [m] instances: untouched if [m] is [0], otherwise suspended with
    the calls after the first [m] still to visit. *)
Definition after_yields {Ctx Inst} (g : generator Ctx Inst)
    (calls : list ToolCall) (m : nat) : generator Ctx Inst :=
  if decide (m = 0) then g else set_frame g (Suspended (drop m calls)).

(** ** Sample data *)

Definition call (n a : string) : ToolCall :=
  mkToolCall (mkFunctionCall n a).

Definition response_of (calls : list ToolCall) : Response :=
  mkResponse [mkChoice (mkMessage calls)].

(** A candidate type named [Weather] that rejects the empty payload and
    otherwise returns the payload read. *)
Definition Weather : Model unit string :=
  mkModel "Weather"
    (fun payload _ _ =>
       if decide (payload = "") then
         inl (mkValidationError "Weather" ["city: Field required"])
       else inr payload).

(** A second type that also calls itself [Weather] and accepts anything. *)
Definition Weather' : Model unit string :=
  mkModel "Weather" (fun payload _ _ => inr ("v2:" ++ payload)).

Definition Stock : Model unit string :=
  mkModel "Stock" (fun payload _ _ => inr payload).

Definition sample_base : ParallelBase unit string :=
  mkParallelBase [Weather; Stock] (dict_of_models [Weather; Stock]).

(** A type named [Weather] that is configured with another title: its
    validation errors are titled [Forecast]. *)
Definition TitledWeather : Model unit string :=
  mkModel "Weather"
    (fun payload _ _ =>
       if decide (payload = "") then
         inl (mkValidationError "Forecast" ["city: Field required"])
       else inr payload).

Definition titled_base : ParallelBase unit string :=
  mkParallelBase [TitledWeather] (dict_of_models [TitledWeather]).

(** A type whose validator numbers the payloads it has seen: the state is
    the count so far, and the instance is the payload with its number. *)
Definition Numbered : Effectful.Model unit (string * nat) nat :=
  Effectful.mkModel "Numbered" (fun payload _ _ w => (inr (payload, w), S w)).

Definition numbered_base : Effectful.ParallelBase unit (string * nat) nat :=
  Effectful.mkParallelBase [Numbered] {[ "Numbered" := Numbered ]}.

(** A type whose validator counts its runs but validates as [Stock] does. *)
Definition Counted : Effectful.Model unit string nat :=
  Effectful.mkModel "Counted" (fun payload _ _ w => (inr payload, S w)).

Definition counted_base : Effectful.ParallelBase unit string nat :=
  Effectful.mkParallelBase [Counted] {[ "Counted" := Counted ]}.

Definition format_name (tp : pytype) : string :=
  match tp with
  | Class n => n
  | Generic Iterable _ => "typing.Iterable[...]"
  | Generic Union _ => "typing.Union[...]"
  | Generic UnionType _ => "... | ..."
  | Generic (OtherOrigin n) _ => n ++ "[...]"
  end.

(** ** The typehint entry points

    [handle_parallel_model] and [ParallelModel] both start from a typehint
    and go through [get_types_array]. *)

(** A list comprehension whose element expression can raise: the elements
    are computed in order and the first exception ends the comprehension. *)
Fixpoint comprehension {A B} (f : A -> result B) (l : list A)
    : result (list B) :=
  match l with
  | [] => ret []
  | a :: l' =>
      let* b := f a in
      let* bs := comprehension f l' in
      ret (b :: bs)
  end.

(** The values of a tool descriptor: a string or a schema. *)
Inductive value (Schema : Type) :=
| Str (s : string)
| Obj (schema : Schema).

Arguments Str {Schema} _.
Arguments Obj {Schema} _.

Section EntryPoints.

Variables Ctx Inst Schema : Type.
Variable format : pytype -> string.

(** The members of the typehint are the class objects themselves;
    [candidate] is a member seen as the candidate type it is handed on as.
    The members are taken to be classes, which bear a [__name__]; a member
    without one (a forward reference) is outside this model. *)
Variable candidate : pytype -> Model Ctx Inst.

(** [openai_schema(model).openai_schema], from
    [instructor.function_calls]: the schema of a member, or the exception
    building it raises. *)
Variable openai_schema : pytype -> result Schema.

(** A descriptor [{"type": "function", "function": ...}], with its keys in
    insertion order. *)
Definition tool_descriptor (schema : Schema) : list (string * value Schema) :=
  [("type", Str "function"); ("function", Obj schema)].

Definition handle_parallel_model (typehint : pytype)
    : result (list (list (string * value Schema))) :=
  let* the_types := get_types_array format typehint in
  comprehension
    (fun model => let* schema := openai_schema model in
                  ret (tool_descriptor schema))
    the_types.

Definition ParallelModel (typehint : pytype) : result (ParallelBase Ctx Inst) :=
  let* the_types := get_types_array format typehint in
  __init__ (candidate <$> the_types).

End EntryPoints.

Arguments tool_descriptor {Schema} _.
Arguments handle_parallel_model {Schema} _ _ _.
Arguments ParallelModel {Ctx Inst} _ _ _.

(** ** Reading to the end, as a recursion

    What a consumer gets from the calls of a response when it reads the
    sequence to its end, written directly as a recursion over the calls: the
    instances of the calls up to the first one that fails, and how the
    reading ended.  The generator is compared with it below. *)
Fixpoint decode_calls {Ctx Inst} (self : ParallelBase Ctx Inst)
    (validation_context : option Ctx) (strict : option bool)
    (calls : list ToolCall) : list Inst * ending :=
  match calls with
  | [] => ([], Exhausted)
  | c :: rest =>
      match registry self !! name (function c) with
      | None => ([], Failed (KeyError (name (function c))))
      | Some model =>
          match model_validate_json model (arguments (function c))
                  validation_context strict with
          | inl e => ([], Failed (ValidationError e))
          | inr v =>
              let '(vs, e) := decode_calls self validation_context strict rest in
              (v :: vs, e)
          end
      end
  end.

(** Sample schemas: every class has one, an alias has none. *)
Definition sample_schema (tp : pytype) : result string :=
  match tp with
  | Class n => ret ("schema of " ++ n)
  | Generic _ _ => raise (TypeError "Class must be a subclass of pydantic.BaseModel")
  end.

Definition sample_candidate (tp : pytype) : Model unit string :=
  match tp with
  | Class n =>
      if decide (n = "Weather") then Weather
      else if decide (n = "Stock") then Stock
      else mkModel n (fun payload _ _ => inr payload)
  | Generic _ _ => mkModel "alias" (fun payload _ _ => inr payload)
  end.

(** ** The registry *)

Section Registry.
Context {Ctx Inst : Type}.
Implicit Types (m : Model Ctx Inst) (ms : list (Model Ctx Inst)).

Lemma dict_of_models_snoc ms m :
  dict_of_models (ms ++ [m]) = <[__name__ m := m]> (dict_of_models ms).
Proof. unfold dict_of_models. by rewrite foldl_snoc. Qed.

Lemma dict_of_models_None ms n :
  dict_of_models ms !! n = None <-> n ∉ __name__ <$> ms.
Proof.
  induction ms as [|m ms IH] using rev_ind.
  - split; [intros _; apply not_elem_of_nil | intros _; apply lookup_empty].
  - rewrite dict_of_models_snoc, fmap_app, not_elem_of_app. simpl.
    rewrite lookup_insert_None, IH, list_elem_of_singleton. clear IH. naive_solver.
Qed.

(** Every key of the dictionary is the name of the model stored under it. *)
Lemma dict_of_models_key ms n m :
  dict_of_models ms !! n = Some m -> __name__ m = n /\ m ∈ ms.
Proof.
  induction ms as [|m' ms IH] using rev_ind.
  - intros H. change (dict_of_models []) with (∅ : gmap string (Model Ctx Inst)) in H.
    by rewrite lookup_empty in H.
  - rewrite dict_of_models_snoc, lookup_insert_Some.
    intros [[<- <-]|[_ H]]; [|apply IH in H]; set_solver.
Qed.

(** The last model supplied under a name is the one found under it. *)
Lemma dict_of_models_last pre m post :
  __name__ m ∉ __name__ <$> post ->
  dict_of_models (pre ++ m :: post) !! __name__ m = Some m.
Proof.
  induction post as [|m' post IH] using rev_ind; intros Hnot.
  - by rewrite dict_of_models_snoc, lookup_insert_eq.
  - rewrite fmap_app, not_elem_of_app in Hnot. destruct Hnot as [Hpost Hm'].
    replace (pre ++ m :: post ++ [m'])%list with ((pre ++ m :: post) ++ [m'])%list
      by (by rewrite <- app_assoc).
    rewrite dict_of_models_snoc, lookup_insert_ne; [by apply IH|].
    set_solver.
Qed.

Lemma dict_of_models_size ms :
  NoDup (__name__ <$> ms) -> size (dict_of_models ms) = length ms.
Proof.
  induction ms as [|m ms IH] using rev_ind; intros Hnd.
  - apply map_size_empty.
  - rewrite fmap_app in Hnd. apply NoDup_app in Hnd as (Hms & Hfresh & _).
    rewrite dict_of_models_snoc, map_size_insert_None, length_app, IH by
      (try done; apply dict_of_models_None; intros Hin;
       apply (Hfresh _ Hin); set_solver).
    simpl. lia.
Qed.

Lemma __init___nonempty ms :
  ms <> [] ->
  __init__ ms = inr (mkParallelBase ms (dict_of_models ms)).
Proof.
  intros Hne. unfold __init__. destruct ms; [done|].
  rewrite decide_True; [done | simpl; lia].
Qed.

End Registry.

(** ** The generator *)

Section Generator.
Context {Ctx Inst : Type}.
Implicit Types (g : generator Ctx Inst) (self : ParallelBase Ctx Inst).
Implicit Types (calls pre rest post : list ToolCall) (vs : list Inst).

Lemma set_frame_set_frame g f f' :
  set_frame (set_frame g f) f' = set_frame g f'.
Proof. reflexivity. Qed.

Lemma set_frame_same g f : gi_frame g = f -> set_frame g f = g.
Proof. intros <-. by destruct g. Qed.

Lemma next_self g : gi_self (next g).2 = gi_self g.
Proof. unfold next. by destruct (resume g). Qed.

Lemma next_response g : gi_response (next g).2 = gi_response g.
Proof. unfold next. by destruct (resume g). Qed.

Lemma next_yield g c rest v :
  gi_frame g = Suspended (c :: rest) ->
  decodes (gi_self g) (gi_validation_context g) (gi_strict g) c v ->
  next g = (Yield v, set_frame g (Suspended rest)).
Proof.
  intros Hf (model & Hreg & Hval). unfold next, resume. rewrite Hf. simpl.
  unfold registry_getitem. rewrite Hreg. simpl. by rewrite Hval.
Qed.

Lemma next_unknown g c rest :
  gi_frame g = Suspended (c :: rest) ->
  registry (gi_self g) !! name (function c) = None ->
  next g = (Raise (KeyError (name (function c))), set_frame g Closed).
Proof.
  intros Hf Hreg. unfold next, resume. rewrite Hf. simpl.
  unfold registry_getitem. by rewrite Hreg.
Qed.

Lemma next_invalid g c rest model e :
  gi_frame g = Suspended (c :: rest) ->
  registry (gi_self g) !! name (function c) = Some model ->
  model_validate_json model (arguments (function c))
    (gi_validation_context g) (gi_strict g) = inl e ->
  next g = (Raise (ValidationError e), set_frame g Closed).
Proof.
  intros Hf Hreg Hval. unfold next, resume. rewrite Hf. simpl.
  unfold registry_getitem. rewrite Hreg. simpl. by rewrite Hval.
Qed.

Lemma next_end g :
  gi_frame g = Suspended [] -> next g = (StopIteration, set_frame g Closed).
Proof. intros Hf. unfold next, resume. by rewrite Hf. Qed.

Lemma next_closed g :
  gi_frame g = Closed -> next g = (StopIteration, g).
Proof.
  intros Hf. unfold next, resume. rewrite Hf. by rewrite set_frame_same.
Qed.

(** The first advance checks the mode, reads the calls off the response
    and enters the loop. *)
Lemma next_created g calls :
  gi_frame g = Created ->
  gi_mode g = PARALLEL_TOOLS ->
  response_tool_calls (gi_response g) = inr calls ->
  next g = next (set_frame g (Suspended calls)).
Proof.
  intros Hf Hm Hr. unfold next, resume. rewrite Hf, Hm, Hr. simpl.
  by destruct (loop _ _ _ calls).
Qed.

Lemma next_wrong_mode g :
  gi_frame g = Created ->
  gi_mode g <> PARALLEL_TOOLS ->
  next g =
    (Raise (AssertionError "Mode must be PARALLEL_TOOLS"), set_frame g Closed).
Proof.
  intros Hf Hm. unfold next, resume. rewrite Hf. by rewrite decide_False.
Qed.

Lemma consume_S m g :
  consume (S m) g =
    match next g with
    | (Yield v, g') => let '(vs, e, g'') := consume m g' in (v :: vs, e, g'')
    | (StopIteration, g') => ([], Some Exhausted, g')
    | (Raise e, g') => ([], Some (Failed e), g')
    end.
Proof. reflexivity. Qed.

Lemma consume_created m g calls :
  gi_frame g = Created ->
  gi_mode g = PARALLEL_TOOLS ->
  response_tool_calls (gi_response g) = inr calls ->
  consume (S m) g = consume (S m) (set_frame g (Suspended calls)).
Proof.
  intros Hf Hm Hr. by rewrite !consume_S, (next_created g calls).
Qed.

Lemma consume_closed k g :
  gi_frame g = Closed ->
  consume k g = ([], if decide (k = 0) then None else Some Exhausted, g).
Proof.
  intros Hf. destruct k; [done|]. by rewrite consume_S, next_closed.
Qed.

(** Reading through a prefix of calls that all decode, then going on. *)
Lemma consume_app_gen self ctx strict pre vs :
  Forall2 (decodes self ctx strict) pre vs ->
  forall g rest k,
    gi_self g = self -> gi_validation_context g = ctx ->
    gi_strict g = strict ->
    gi_frame g = Suspended (pre ++ rest) ->
    consume (length pre + k) g =
      let r := consume k (set_frame g (Suspended rest)) in
      (vs ++ received r, ended r, r.2)%list.
Proof.
  induction 1 as [|c v pre vs Hc _ IH]; intros g rest k Hs Hx Hst Hf.
  - simpl in *. rewrite (set_frame_same g) by done.
    by destruct (consume k g) as [[??]?].
  - simpl length. simpl Nat.add. rewrite consume_S.
    rewrite (next_yield g c (pre ++ rest) v) by (by subst).
    rewrite (IH (set_frame g (Suspended (pre ++ rest)%list)) rest k) by done.
    rewrite set_frame_set_frame. simpl.
    by destruct (consume k _) as [[??]?].
Qed.

Lemma consume_app g pre rest vs k :
  gi_frame g = Suspended (pre ++ rest) ->
  Forall2 (decodes (gi_self g) (gi_validation_context g) (gi_strict g))
    pre vs ->
  consume (length pre + k) g =
    let r := consume k (set_frame g (Suspended rest)) in
    (vs ++ received r, ended r, r.2)%list.
Proof. intros Hf Hdec. by eapply consume_app_gen. Qed.

Lemma consume_prefix g pre rest vs :
  gi_frame g = Suspended (pre ++ rest) ->
  Forall2 (decodes (gi_self g) (gi_validation_context g) (gi_strict g))
    pre vs ->
  consume (length pre) g = (vs, None, set_frame g (Suspended rest)).
Proof.
  intros Hf Hdec. rewrite <- (Nat.add_0_r (length pre)).
  rewrite (consume_app g pre rest vs 0) by done.
  simpl. unfold received. simpl. by rewrite app_nil_r.
Qed.

Lemma consume_self k g : gi_self (consume k g).2 = gi_self g.
Proof.
  revert g. induction k as [|k IH]; intros g; [done|].
  rewrite consume_S. pose proof (next_self g) as Hs.
  destruct (next g) as [[v| |e] g']; simpl in *; try done.
  specialize (IH g'). destruct (consume k g') as [[??]?]. simpl in *.
  congruence.
Qed.

Lemma consume_response k g : gi_response (consume k g).2 = gi_response g.
Proof.
  revert g. induction k as [|k IH]; intros g; [done|].
  rewrite consume_S. pose proof (next_response g) as Hs.
  destruct (next g) as [[v| |e] g']; simpl in *; try done.
  specialize (IH g'). destruct (consume k g') as [[??]?]. simpl in *.
  congruence.
Qed.

End Generator.

(** ** The type-set extractor *)

(** A typehint whose origin is not [Iterable] is refused with a [TypeError]
    whose message ends with the typehint as formatted. *)
Lemma get_types_array_not_iterable format typehint :
  get_origin typehint <> Some Iterable ->
  get_types_array format typehint
    = inl (TypeError
             ("Model should be with Iterable instead if " ++ format typehint)).
Proof. intros Ho. unfold get_types_array. by rewrite decide_True. Qed.

(** C2. For a typehint [Iterable] over a union of members [ts], written with
    [typing.Union] or with [|], [get_types_array] returns exactly [ts], in
    order.  For [Iterable[T]] with [T] not a union it returns the
    one-element tuple [(T,)], and an [Iterable] over the union whose only
    member is [T] gives that same result. *)
Theorem get_types_array_members format (s : union_syntax)
    (ts : list pytype) (T : pytype) :
  get_types_array format (iterable_of (union_of s ts)) = inr ts /\
  (is_union T = false ->
   get_types_array format (iterable_of T) = inr [T] /\
   get_types_array format (iterable_of (union_of s [T]))
     = get_types_array format (iterable_of T)).
Proof.
  assert (Hu : forall ms,
    get_types_array format (iterable_of (union_of s ms)) = inr ms)
    by (intros ms; by destruct s).
  split; [apply Hu|]. intros HT.
  apply bool_decide_eq_false in HT.
  assert (HT' : get_types_array format (iterable_of T) = inr [T]).
  { unfold get_types_array, iterable_of. simpl.
    rewrite !decide_False by tauto. done. }
  by rewrite Hu, HT'.
Qed.

Lemma get_types_array_members_witness :
  get_types_array format_name
    (iterable_of (union_of BarOperator [Class "Weather"; Class "Stock"]))
    = inr [Class "Weather"; Class "Stock"] /\
  get_types_array format_name (iterable_of (Class "Weather"))
    = inr [Class "Weather"] /\
  get_types_array format_name
    (iterable_of (union_of BarOperator [Class "Weather"]))
    = get_types_array format_name (iterable_of (Class "Weather")).
Proof.
  destruct (get_types_array_members format_name BarOperator
              [Class "Weather"; Class "Stock"] (Class "Weather"))
    as [Hunion Hsingle].
  split; [exact Hunion|]. apply Hsingle. reflexivity.
Defined.

(** C3. The unsubscripted alias [typing.Iterable] is not of the shape
    "iterable of X", yet it passes the origin test; the extractor then
    indexes its empty argument tuple and fails with [IndexError], not with
    the [TypeError] that names the declaration. *)
Theorem get_types_array_unsubscripted format :
  (forall X, Generic Iterable [] <> iterable_of X) /\
  get_origin (Generic Iterable []) = Some Iterable /\
  get_args (Generic Iterable []) = [] /\
  get_types_array format (Generic Iterable [])
    = inl (IndexError "tuple index out of range").
Proof. split; [intros X; discriminate|]. repeat split. Qed.

(** ** Registry construction *)

(** C4. Constructing the registry from no candidate type fails with the
    assertion error.  From [k >= 1] types with pairwise distinct names it
    succeeds: the mapping has exactly [k] entries, each type is found under
    its own name, and the tuple of types is the one supplied, in order. *)
Theorem init_registry {Ctx Inst} (ms : list (Model Ctx Inst)) :
  __init__ ([] : list (Model Ctx Inst))
    = inl (AssertionError "At least one model is required") /\
  (0 < length ms -> NoDup (__name__ <$> ms) ->
   exists self,
     __init__ ms = inr self /\
     size (registry self) = length ms /\
     (forall m, m ∈ ms -> registry self !! __name__ m = Some m) /\
     models self = ms).
Proof.
  split; [reflexivity|]. intros Hlen Hnd.
  exists (mkParallelBase ms (dict_of_models ms)). split_and!.
  - apply __init___nonempty. by destruct ms; [simpl in Hlen; lia|].
  - by apply dict_of_models_size.
  - intros m Hm. simpl. apply list_elem_of_split in Hm as (pre & post & ->).
    apply dict_of_models_last.
    rewrite fmap_app, fmap_cons in Hnd.
    apply NoDup_app in Hnd as (_ & _ & Hnd). by apply NoDup_cons in Hnd as [? _].
  - reflexivity.
Qed.

Lemma init_registry_witness :
  exists self,
    __init__ [Weather; Stock] = inr self /\
    size (registry self) = 2 /\
    (forall m, m ∈ [Weather; Stock] -> registry self !! __name__ m = Some m) /\
    models self = [Weather; Stock].
Proof.
  apply (init_registry [Weather; Stock]).
  - simpl. lia.
  - simpl. compute_done.
Defined.

(** C9. When several supplied types share a name, construction still
    succeeds; the name is bound to the last type supplied under it, whatever
    came before, and the tuple of types keeps every supplied type in
    order. *)
Theorem init_last_write_wins {Ctx Inst} (pre post : list (Model Ctx Inst))
    (m : Model Ctx Inst) :
  __name__ m ∉ __name__ <$> post ->
  exists self,
    __init__ (pre ++ m :: post) = inr self /\
    registry self !! __name__ m = Some m /\
    models self = (pre ++ m :: post)%list.
Proof.
  intros Hlast.
  exists (mkParallelBase (pre ++ m :: post) (dict_of_models (pre ++ m :: post))).
  split_and!; [|by apply dict_of_models_last|done].
  apply __init___nonempty. by destruct pre.
Qed.

Lemma init_last_write_wins_witness :
  Weather <> Weather' /\
  exists self,
    __init__ [Weather; Stock; Weather'] = inr self /\
    registry self !! "Weather" = Some Weather' /\
    models self = [Weather; Stock; Weather'].
Proof.
  split.
  - intros H. apply (f_equal (fun M => model_validate_json M "x" None None)) in H.
    discriminate H.
  - apply (init_last_write_wins [Weather; Stock] [] Weather').
    simpl. apply not_elem_of_nil.
Defined.

(** ** Decoding *)

Section Decoding.
Context {Ctx Inst : Type}.
Implicit Types (g : generator Ctx Inst) (self : ParallelBase Ctx Inst).
Implicit Types (calls pre rest post : list ToolCall) (vs : list Inst).

Lemma decodes_all self ctx strict calls :
  Forall (fun c => exists v, decodes self ctx strict c v) calls ->
  exists vs, Forall2 (decodes self ctx strict) calls vs.
Proof.
  induction 1 as [|c calls [v Hv] _ [vs Hvs]].
  - exists []. constructor.
  - exists (v :: vs). by constructor.
Qed.

(** A generator suspended with [rest] to visit ends within
    [length rest + 1] advances. *)
Lemma consume_suspended_ends rest :
  forall g k,
    gi_frame g = Suspended rest -> length rest < k ->
    ended (consume k g) <> None.
Proof.
  induction rest as [|c rest IH]; intros g k Hf Hk.
  - destruct k; [simpl in Hk; lia|]. by rewrite consume_S, next_end.
  - destruct k as [|k]; [lia|]. rewrite consume_S.
    unfold next, resume. rewrite Hf. simpl.
    destruct (registry_getitem _ _) as [e|model]; [done|].
    destruct (model_validate_json _ _ _ _) as [e|v]; [done|].
    specialize (IH (set_frame g (Suspended rest)) k eq_refl).
    destruct (consume k _) as [[??]?]. apply IH. simpl in Hk. lia.
Qed.

(** Every generator ends: the sequence is finite. *)
Lemma consume_ends g :
  exists n, forall k, n <= k -> ended (consume k g) <> None.
Proof.
  destruct (gi_frame g) as [|rest|] eqn:Hf.
  - destruct (decide (gi_mode g = PARALLEL_TOOLS)) as [Hm|Hm].
    + destruct (response_tool_calls (gi_response g)) as [e|calls] eqn:Hr.
      * exists 1. intros [|k] Hk; [lia|]. rewrite consume_S.
        unfold next, resume. rewrite Hf, Hm, Hr. done.
      * exists (S (length calls)). intros [|k] Hk; [lia|].
        rewrite (consume_created k g calls) by done.
        apply (consume_suspended_ends calls); [done|lia].
    + exists 1. intros [|k] Hk; [lia|].
      by rewrite consume_S, next_wrong_mode.
  - exists (S (length rest)). intros k Hk.
    apply (consume_suspended_ends rest); [done|lia].
  - exists 1. intros k Hk. rewrite consume_closed by done.
    rewrite decide_False by lia. done.
Qed.

(** The consumer's view when the call after [pre] makes the body raise. *)
Lemma consume_raises self response ctx strict pre c post vs e :
  let g := mkGenerator self response PARALLEL_TOOLS ctx strict Created in
  response_tool_calls response = inr (pre ++ c :: post)%list ->
  Forall2 (decodes self ctx strict) pre vs ->
  next (set_frame g (Suspended (c :: post))) = (Raise e, set_frame g Closed) ->
  consume (length pre) g
    = (vs, None, after_yields g (pre ++ c :: post) (length pre)) /\
  (forall k, length pre < k ->
     consume k g = (vs, Some (Failed e), set_frame g Closed)).
Proof.
  intros g Hr Hdec Hnext. split.
  - unfold after_yields. destruct (decide (length pre = 0)) as [H0|H0].
    + apply length_zero_iff_nil in H0. subst pre.
      by apply Forall2_nil_inv_l in Hdec as ->.
    + destruct (length pre) as [|n] eqn:Hn; [done|].
      rewrite (consume_created n g (pre ++ c :: post)) by done.
      rewrite <- Hn.
      rewrite (consume_prefix _ pre (c :: post) vs) by done.
      by rewrite drop_app_length.
  - intros k Hk.
    replace k with (S (length pre + (k - S (length pre)))) by lia.
    rewrite (consume_created _ g (pre ++ c :: post)) by done.
    rewrite <- Nat.add_succ_r.
    rewrite (consume_app _ pre (c :: post) vs) by done.
    rewrite set_frame_set_frame, consume_S, Hnext.
    unfold received, ended. simpl. by rewrite app_nil_r.
Qed.

End Decoding.

(** The two-call response of the specification's example, read to its end. *)
Example decode_two_weather_calls :
  let response :=
    response_of [call "Weather" "Paris"; call "Weather" "Tokyo"] in
  exists g,
    from_response sample_base response PARALLEL_TOOLS None None = inr g /\
    consume 3 g = (["Paris"; "Tokyo"], Some Exhausted, set_frame g Closed).
Proof. eexists. split; reflexivity. Qed.

(** A reader of one element is not stopped by a later unknown call. *)
Example decode_first_only :
  let response :=
    response_of [call "Weather" "Paris"; call "Unknown" "x"] in
  exists g,
    from_response sample_base response PARALLEL_TOOLS None None = inr g /\
    received (consume 1 g) = ["Paris"] /\ ended (consume 1 g) = None /\
    ended (consume 2 g) = Some (Failed (KeyError "Unknown")).
Proof. eexists. repeat split; reflexivity. Qed.

(** A response without choices: reading [choices[0]] raises. *)
Example decode_no_choice :
  exists g,
    from_response sample_base (mkResponse []) PARALLEL_TOOLS None None = inr g /\
    consume 1 g
      = ([], Some (Failed (IndexError "list index out of range")),
         set_frame g Closed).
Proof. eexists. split; reflexivity. Qed.

(** C1. In the parallel-tools mode, a consumer that asks for [m] elements of
    a response whose first [m] calls decode receives exactly one instance
    per call, in call order, each being what the model registered under the
    call's name returns for the call's payload under the same
    [validation_context] and [strict].  Nothing is asked of the later calls:
    they are left unvisited in the suspended generator.  When [m] is the
    number of calls, one more advance ends the sequence. *)
Theorem from_response_decodes {Ctx Inst} (self : ParallelBase Ctx Inst)
    (response : Response) (calls : list ToolCall)
    (validation_context : option Ctx) (strict : option bool) (m : nat) :
  response_tool_calls response = inr calls ->
  m <= length calls ->
  Forall (fun c => exists v, decodes self validation_context strict c v)
    (take m calls) ->
  exists g vs,
    from_response self response PARALLEL_TOOLS validation_context strict
      = inr g /\
    Forall2 (decodes self validation_context strict) (take m calls) vs /\
    consume m g = (vs, None, after_yields g calls m) /\
    (m = length calls ->
     consume (S m) g = (vs, Some Exhausted, set_frame g Closed)).
Proof.
  intros Hr Hm Hdec. apply decodes_all in Hdec as [vs Hvs].
  set (g := mkGenerator self response PARALLEL_TOOLS validation_context
              strict Created).
  exists g, vs. split_and!; [done|done| |].
  - unfold after_yields. destruct m as [|m].
    + rewrite take_0 in Hvs. by apply Forall2_nil_inv_l in Hvs as ->.
    + rewrite decide_False by lia.
      rewrite (consume_created m g calls) by done.
      rewrite <- (length_take_le calls (S m)) at 1 by done.
      by rewrite (consume_prefix _ (take (S m) calls) (drop (S m) calls) vs)
        by (simpl; by rewrite ?take_drop).
  - intros ->. rewrite firstn_all in Hvs.
    rewrite (consume_created _ g calls) by done.
    replace (S (length calls)) with (length calls + 1) by lia.
    rewrite (consume_app _ calls [] vs 1);
      [|by simpl; rewrite app_nil_r|done].
    rewrite set_frame_set_frame, consume_S, next_end by done.
    unfold received, ended. simpl. by rewrite app_nil_r.
Qed.

Lemma from_response_decodes_witness :
  let calls :=
    [call "Weather" "Paris"; call "Stock" "ACME"; call "Unknown" "x"] in
  exists g vs,
    from_response sample_base (response_of calls) PARALLEL_TOOLS None None
      = inr g /\
    Forall2 (decodes sample_base None None) (take 2 calls) vs /\
    consume 2 g = (vs, None, after_yields g calls 2) /\
    (2 = length calls ->
     consume 3 g = (vs, Some Exhausted, set_frame g Closed)).
Proof.
  intros calls.
  apply (from_response_decodes sample_base (response_of calls) calls
           None None 2).
  - reflexivity.
  - simpl. lia.
  - simpl. repeat constructor.
    + exists "Paris", Weather. split; reflexivity.
    + exists "ACME", Stock. split; reflexivity.
Defined.

(** C5, as the code has it.  With a mode other than the parallel-tools mode
    the call itself returns the sequence; the sequence fails with the
    assertion error at its first advance, whatever the response holds (its
    calls are not read), and no instance is yielded. *)
Theorem wrong_mode_first_advance {Ctx Inst} (self : ParallelBase Ctx Inst)
    (response : Response) (mode : Mode)
    (validation_context : option Ctx) (strict : option bool) (k : nat) :
  mode <> PARALLEL_TOOLS ->
  0 < k ->
  exists g,
    from_response self response mode validation_context strict = inr g /\
    consume k g
      = ([], Some (Failed (AssertionError "Mode must be PARALLEL_TOOLS")),
         set_frame g Closed).
Proof.
  intros Hmode Hk. eexists. split; [reflexivity|].
  destruct k as [|k]; [lia|]. by rewrite consume_S, next_wrong_mode.
Qed.

Lemma wrong_mode_first_advance_witness :
  exists g,
    from_response sample_base (mkResponse []) (OtherMode "TOOLS") None None
      = inr g /\
    consume 1 g
      = ([], Some (Failed (AssertionError "Mode must be PARALLEL_TOOLS")),
         set_frame g Closed).
Proof.
  apply (wrong_mode_first_advance sample_base (mkResponse [])
           (OtherMode "TOOLS") None None 1).
  - discriminate.
  - lia.
Defined.

(** C5 as stated does not hold: calling [from_response] with another mode raises
    nothing. *)
Lemma wrong_mode_call_does_not_fail :
  ~ exists e,
      from_response sample_base (response_of [call "Weather" "Paris"])
        (OtherMode "TOOLS") None None = inl e.
Proof. intros [e He]. discriminate He. Qed.

(** C6. When the call after a prefix of decodable calls bears a name that is
    not a key of the registry, the consumer first receives the instances of
    the prefix; the advance at that call raises [KeyError] with the missing
    name; the instances received stay received, and the generator, now
    closed, yields nothing more. *)
Theorem unknown_tool_name {Ctx Inst} (self : ParallelBase Ctx Inst)
    (response : Response) (pre post : list ToolCall) (c : ToolCall)
    (validation_context : option Ctx) (strict : option bool)
    (vs : list Inst) :
  response_tool_calls response = inr (pre ++ c :: post)%list ->
  Forall2 (decodes self validation_context strict) pre vs ->
  registry self !! name (function c) = None ->
  exists g,
    from_response self response PARALLEL_TOOLS validation_context strict
      = inr g /\
    consume (length pre) g
      = (vs, None, after_yields g (pre ++ c :: post) (length pre)) /\
    (forall k, length pre < k ->
       consume k g
         = (vs, Some (Failed (KeyError (name (function c)))),
            set_frame g Closed)) /\
    (forall k, received (consume k (set_frame g Closed)) = []).
Proof.
  intros Hr Hdec Hreg.
  set (g := mkGenerator self response PARALLEL_TOOLS validation_context
              strict Created).
  exists g. split; [reflexivity|].
  destruct (consume_raises self response validation_context strict pre c post
              vs (KeyError (name (function c))) Hr Hdec) as [Hpre Hfail];
    [exact (next_unknown (set_frame g (Suspended (c :: post))) c post
              eq_refl Hreg)|].
  split_and!; [exact Hpre|exact Hfail|].
  intros k. by rewrite consume_closed.
Qed.

Lemma unknown_tool_name_witness :
  let pre := [call "Weather" "Paris"] in
  let c := call "Unknown" "x" in
  let post := [call "Stock" "ACME"] in
  exists g,
    from_response sample_base (response_of (pre ++ c :: post))
      PARALLEL_TOOLS None None = inr g /\
    consume 1 g = (["Paris"], None, after_yields g (pre ++ c :: post) 1) /\
    (forall k, 1 < k ->
       consume k g
         = (["Paris"], Some (Failed (KeyError "Unknown")), set_frame g Closed)) /\
    (forall k, received (consume k (set_frame g Closed)) = []).
Proof.
  intros pre c post.
  apply (unknown_tool_name sample_base (response_of (pre ++ c :: post))
           pre post c None None ["Paris"]).
  - reflexivity.
  - repeat constructor. exists Weather. split; reflexivity.
  - reflexivity.
Defined.




(** ** Decoding twice *)

Section EffectfulDecoder.
Context {Ctx Inst W : Type}.
Implicit Types (g : Effectful.generator Ctx Inst W) (w : W).
Implicit Types (self : Effectful.ParallelBase Ctx Inst W).

(** With state-independent validation, a turn of the loop gives the same
    signal and the same frame from any state. *)
Lemma effectful_loop_state self ctx strict rest w1 w2 :
  Effectful.state_independent self ->
  (Effectful.loop self ctx strict rest w1).1
  = (Effectful.loop self ctx strict rest w2).1.
Proof.
  intros Hind. destruct rest as [|c rest]; [done|]. simpl.
  unfold Effectful.registry_getitem.
  destruct (Effectful.registry self !! name (function c)) as [model|] eqn:Hreg;
    [|done]. simpl.
  pose proof (Hind _ model Hreg (arguments (function c)) ctx strict w1 w2)
    as Hval.
  destruct (Effectful.model_validate_json model _ ctx strict w1) as [[e1|v1] w1'].
  - destruct (Effectful.model_validate_json model _ ctx strict w2)
      as [[e2|v2] w2']; simpl in Hval; [by injection Hval as <-|done].
  - destruct (Effectful.model_validate_json model _ ctx strict w2)
      as [[e2|v2] w2']; simpl in Hval; [done|by injection Hval as <-].
Qed.

Lemma effectful_next_state g w1 w2 :
  Effectful.state_independent (Effectful.gi_self g) ->
  (Effectful.next g w1).1 = (Effectful.next g w2).1.
Proof.
  intros Hind. unfold Effectful.next.
  assert (Hres : (Effectful.resume g w1).1 = (Effectful.resume g w2).1).
  { unfold Effectful.resume. destruct (Effectful.gi_frame g) as [|rest|].
    - destruct (decide _) as [Hmode|Hmode]; [|done].
      destruct (response_tool_calls _) as [e|calls]; [done|].
      by apply effectful_loop_state.
    - by apply effectful_loop_state.
    - done. }
  destruct (Effectful.resume g w1) as [[s1 f1] w1'].
  destruct (Effectful.resume g w2) as [[s2 f2] w2'].
  simpl in *. by injection Hres as <- <-.
Qed.

(** With state-independent validation, what a consumer receives, how its
    reading ends and the generator it is left with do not depend on the
    state the reading starts in. *)
Lemma effectful_consume_state k :
  forall g w1 w2,
    Effectful.state_independent (Effectful.gi_self g) ->
    (Effectful.consume k g w1).1 = (Effectful.consume k g w2).1.
Proof.
  induction k as [|k IH]; intros g w1 w2 Hind; [done|]. simpl.
  pose proof (effectful_next_state g w1 w2 Hind) as Hn.
  assert (Hg : forall w, Effectful.gi_self (Effectful.next g w).1.2
                         = Effectful.gi_self g).
  { intros w. unfold Effectful.next.
    by destruct (Effectful.resume g w) as [[??]?]. }
  specialize (Hg w1).
  destruct (Effectful.next g w1) as [[s1 g1] w1'].
  destruct (Effectful.next g w2) as [[s2 g2] w2'].
  simpl in *. injection Hn as <- <-.
  destruct s1 as [v| |e]; [|done|done].
  rewrite <- Hg in Hind. specialize (IH g1 w1' w2' Hind).
  destruct (Effectful.consume k g1 w1') as [[[??]?]?].
  destruct (Effectful.consume k g1 w2') as [[[??]?]?].
  simpl in IH. by injection IH as <- <- <-.
Qed.

(** The decoder with effects, run on types without effects, is the decoder
    above, and leaves the state as it found it. *)
Lemma effectful_consume_pure k :
  forall (g : Parallel.generator Ctx Inst) w,
    Effectful.consume k (Effectful.pure_generator W g) w
    = let r := Parallel.consume k g in
      (r.1.1, r.1.2, Effectful.pure_generator W r.2, w).
Proof.
  induction k as [|k IH]; intros g w; [done|].
  rewrite consume_S. simpl Effectful.consume.
  assert (Hloop : forall (pb : Parallel.ParallelBase Ctx Inst) ctx strict rest,
    Effectful.loop (Effectful.pure_base W pb) ctx strict rest w
    = ((Parallel.loop pb ctx strict rest).1,
       (Parallel.loop pb ctx strict rest).2, w)).
  { intros pb ctx strict [|c rest]; [done|]. simpl.
    unfold Effectful.registry_getitem, Parallel.registry_getitem. simpl.
    rewrite lookup_fmap.
    destruct (Parallel.registry pb !! name (function c)) as [model|];
      [|done]. simpl.
    by destruct (Parallel.model_validate_json model _ ctx strict). }
  assert (Hnext : Effectful.next (Effectful.pure_generator W g) w
    = ((Parallel.next g).1, Effectful.pure_generator W (Parallel.next g).2, w)).
  { unfold Effectful.next, Parallel.next, Effectful.resume, Parallel.resume.
    simpl. destruct (Parallel.gi_frame g) as [|rest|]; simpl.
    - destruct (decide _) as [Hmode|Hmode]; [|done].
      destruct (response_tool_calls _) as [e|calls]; [done|].
      rewrite Hloop. by destruct (Parallel.loop _ _ _ calls).
    - rewrite Hloop. by destruct (Parallel.loop _ _ _ rest).
    - done. }
  rewrite Hnext. destruct (Parallel.next g) as [[v| |e] g']; simpl; [|done|done].
  rewrite IH. by destruct (Parallel.consume k g') as [[??]?].
Qed.

End EffectfulDecoder.




(** C10. With a mode other than the parallel-tools mode, calling
    [from_response] raises nothing and returns a generator that has not
    started.  The assertion error comes at the first advance, which closes
    the generator; no reading of it, however long, receives an instance. *)
Theorem wrong_mode_deferred {Ctx Inst} (self : ParallelBase Ctx Inst)
    (response : Response) (mode : Mode)
    (validation_context : option Ctx) (strict : option bool) :
  mode <> PARALLEL_TOOLS ->
  exists g,
    from_response self response mode validation_context strict = inr g /\
    gi_frame g = Created /\
    next g
      = (Raise (AssertionError "Mode must be PARALLEL_TOOLS"),
         set_frame g Closed) /\
    (forall k, received (consume k g) = []) /\
    (forall k, received (consume k (set_frame g Closed)) = []).
Proof.
  intros Hmode.
  set (g := mkGenerator self response mode validation_context strict Created).
  assert (Hnext : next g
    = (Raise (AssertionError "Mode must be PARALLEL_TOOLS"),
       set_frame g Closed)) by (by apply next_wrong_mode).
  exists g. split_and!; [done|done|exact Hnext| |].
  - intros [|k]; [done|]. by rewrite consume_S, Hnext.
  - intros k. by rewrite consume_closed.
Qed.

Lemma wrong_mode_deferred_witness :
  exists g,
    from_response sample_base (response_of [call "Weather" "Paris"])
      (OtherMode "JSON") None None = inr g /\
    gi_frame g = Created /\
    next g
      = (Raise (AssertionError "Mode must be PARALLEL_TOOLS"),
         set_frame g Closed) /\
    (forall k, received (consume k g) = []) /\
    (forall k, received (consume k (set_frame g Closed)) = []).
Proof.
  apply (wrong_mode_deferred sample_base (response_of [call "Weather" "Paris"])
           (OtherMode "JSON") None None).
  discriminate.
Defined.

(** ** Further properties of the extractor *)

(** X1. [get_types_array] returns a tuple exactly for the typehints whose
    origin is [Iterable] and that carry at least one argument. *)
Theorem get_types_array_succeeds_iff format (typehint : pytype) :
  (exists ts, get_types_array format typehint = inr ts) <->
  get_origin typehint = Some Iterable /\ get_args typehint <> [].
Proof.
  unfold get_types_array. simpl.
  destruct (decide (get_origin typehint <> Some Iterable)) as [Ho|Ho].
  - split; [intros [ts Hts]; discriminate Hts | intros [Hi _]; by destruct Ho].
  - apply dec_stable in Ho.
    destruct (get_args typehint) as [|arg0 more] eqn:Hargs.
    + split; [intros [ts Hts]; discriminate Hts | intros [_ Hne]; done].
    + split; [done|]. intros _. simpl.
      repeat case_decide; eauto.
Qed.

(** X2. [get_types_array] raises only two exceptions: the [TypeError] whose
    message ends with the typehint as formatted, exactly when the origin is
    not [Iterable], and the [IndexError] of indexing an empty tuple, exactly
    when the origin is [Iterable] and there is no argument. *)
Theorem get_types_array_errors format (typehint : pytype) (e : exn) :
  get_types_array format typehint = inl e ->
  (get_origin typehint <> Some Iterable /\
   e = TypeError
         ("Model should be with Iterable instead if " ++ format typehint)) \/
  (get_origin typehint = Some Iterable /\ get_args typehint = [] /\
   e = IndexError "tuple index out of range").
Proof.
  unfold get_types_array. simpl.
  destruct (decide (get_origin typehint <> Some Iterable)) as [Ho|Ho].
  - intros [= <-]. by left.
  - apply dec_stable in Ho.
    destruct (get_args typehint) as [|arg0 more] eqn:Hargs.
    + intros [= <-]. by right.
    + simpl. repeat case_decide; discriminate.
Qed.

Lemma get_types_array_errors_witness :
  (get_origin (Generic (OtherOrigin "list") [Class "Weather"])
     <> Some Iterable /\
   TypeError "Model should be with Iterable instead if list[...]"
     = TypeError
         ("Model should be with Iterable instead if "
          ++ format_name (Generic (OtherOrigin "list") [Class "Weather"]))) \/
  (get_origin (Generic (OtherOrigin "list") [Class "Weather"])
     = Some Iterable /\
   get_args (Generic (OtherOrigin "list") [Class "Weather"]) = [] /\
   TypeError "Model should be with Iterable instead if list[...]"
     = IndexError "tuple index out of range").
Proof.
  apply (get_types_array_errors format_name
           (Generic (OtherOrigin "list") [Class "Weather"])).
  reflexivity.
Defined.

(** X3. Only the first argument of the [Iterable] alias is tested for being
    a union.  If it is one, its members are returned as they stand (a member
    that is itself a union is not opened) and any further argument of the
    alias is dropped; if it is not, all the arguments of the alias are
    returned. *)
Theorem get_types_array_first_argument format (arg0 : pytype)
    (more : list pytype) :
  get_types_array format (Generic Iterable (arg0 :: more))
    = inr (if is_union arg0 then get_args arg0 else arg0 :: more).
Proof.
  unfold get_types_array, is_union. simpl.
  destruct (decide (get_origin arg0 = Some Union)) as [Hu|Hu].
  - rewrite bool_decide_eq_true_2 by (by left). done.
  - destruct (decide (get_origin arg0 = Some UnionType)) as [Hb|Hb].
    + rewrite bool_decide_eq_true_2 by (by right). done.
    + rewrite bool_decide_eq_false_2 by tauto. done.
Qed.

(** ** Further properties of the registry *)

Section RegistryMore.
Context {Ctx Inst : Type}.
Implicit Types (m : Model Ctx Inst) (ms : list (Model Ctx Inst)).

Lemma dict_of_models_dom ms :
  dom (dict_of_models ms) = list_to_set (C := gset string) (__name__ <$> ms).
Proof.
  induction ms as [|m ms IH] using rev_ind.
  - unfold dict_of_models. simpl. apply dom_empty_L.
  - rewrite dict_of_models_snoc, dom_insert_L, IH, fmap_app.
    simpl. rewrite list_to_set_snoc_L. set_solver.
Qed.

(** The entry found under a name is the last model supplied under it. *)
Lemma dict_of_models_Some ms n m :
  dict_of_models ms !! n = Some m ->
  exists pre post,
    ms = (pre ++ m :: post)%list /\ __name__ m = n /\
    n ∉ __name__ <$> post.
Proof.
  induction ms as [|m' ms IH] using rev_ind.
  - intros H. change (dict_of_models []) with (∅ : gmap string (Model Ctx Inst)) in H.
    by rewrite lookup_empty in H.
  - rewrite dict_of_models_snoc, lookup_insert_Some.
    intros [[<- <-]|[Hne H]].
    + exists ms, []. split_and!; [done|done|]. simpl. apply not_elem_of_nil.
    + destruct (IH H) as (pre & post & -> & Hn & Hpost).
      exists pre, (post ++ [m'])%list. split_and!.
      * by rewrite <- app_assoc.
      * done.
      * rewrite fmap_app, not_elem_of_app. split; [done|].
        simpl. rewrite list_elem_of_singleton. congruence.
Qed.

Lemma __init___inv ms (self : ParallelBase Ctx Inst) :
  __init__ ms = inr self ->
  ms <> [] /\ models self = ms /\ registry self = dict_of_models ms.
Proof.
  unfold __init__. destruct (decide _) as [Hlen|]; [|done].
  intros [= <-]. split_and!; [|done|done]. by destruct ms; [simpl in Hlen; lia|].
Qed.

End RegistryMore.

(** X4. The keys of a constructed registry are exactly the names of the
    types supplied. *)
Theorem registry_keys_are_names {Ctx Inst} (ms : list (Model Ctx Inst))
    (self : ParallelBase Ctx Inst) (n : string) :
  __init__ ms = inr self ->
  (is_Some (registry self !! n) <-> n ∈ __name__ <$> ms).
Proof.
  intros Hinit. apply __init___inv in Hinit as (_ & _ & ->).
  rewrite <- not_eq_None_Some, dict_of_models_None.
  split; [apply dec_stable | by intros ??].
Qed.

Lemma registry_keys_are_names_witness :
  is_Some (registry sample_base !! "Stock") <->
  "Stock" ∈ __name__ <$> [Weather; Stock].
Proof.
  apply (registry_keys_are_names [Weather; Stock] sample_base "Stock").
  reflexivity.
Defined.

(** X5. Every entry of a constructed registry is one of the types supplied,
    stored under its own name, and no type supplied after it bears that
    name. *)
Theorem registry_entries_are_supplied {Ctx Inst} (ms : list (Model Ctx Inst))
    (self : ParallelBase Ctx Inst) (n : string) (m : Model Ctx Inst) :
  __init__ ms = inr self ->
  registry self !! n = Some m ->
  exists pre post,
    ms = (pre ++ m :: post)%list /\ __name__ m = n /\
    n ∉ __name__ <$> post.
Proof.
  intros Hinit Hm. apply __init___inv in Hinit as (_ & _ & Hreg).
  rewrite Hreg in Hm. by apply dict_of_models_Some.
Qed.

Lemma registry_entries_are_supplied_witness :
  exists pre post,
    [Weather; Stock] = (pre ++ Stock :: post)%list /\
    __name__ Stock = "Stock" /\ "Stock" ∉ __name__ <$> post.
Proof.
  apply (registry_entries_are_supplied [Weather; Stock] sample_base "Stock"
           Stock); reflexivity.
Defined.

(** X6. A constructed registry has as many entries as there are distinct
    names among the types supplied; so never more entries than types, and
    fewer as soon as two types share a name. *)
Theorem registry_size_distinct_names {Ctx Inst} (ms : list (Model Ctx Inst))
    (self : ParallelBase Ctx Inst) :
  __init__ ms = inr self ->
  size (registry self) = length (remove_dups (__name__ <$> ms)) /\
  size (registry self) <= length ms /\
  (size (registry self) = length ms <-> NoDup (__name__ <$> ms)).
Proof.
  intros Hinit. apply __init___inv in Hinit as (_ & _ & ->).
  assert (Hsize : size (dict_of_models ms)
                  = length (remove_dups (__name__ <$> ms))).
  { rewrite <- size_dom, dict_of_models_dom.
    rewrite <- (size_list_to_set (C := gset string)
                  (remove_dups (__name__ <$> ms)))
      by apply NoDup_remove_dups.
    f_equal. apply set_eq. intros x.
    by rewrite !elem_of_list_to_set, elem_of_remove_dups. }
  assert (Hle : forall l : list string, length (remove_dups l) <= length l).
  { induction l as [|x l IH]; simpl; [lia|].
    case_decide; simpl; lia. }
  assert (Heq : forall l : list string,
             length (remove_dups l) = length l <-> NoDup l).
  { induction l as [|x l IH]; simpl.
    - split; [constructor|done].
    - rewrite NoDup_cons. specialize (Hle l). case_decide; simpl.
      + split; [lia|]. by intros [??].
      + rewrite <- IH. split; [intros; split; [done|lia] | intros [_ ?]; lia]. }
  rewrite Hsize. split_and!; [done| |].
  - rewrite <- (length_fmap __name__ ms). apply Hle.
  - rewrite <- (length_fmap __name__ ms). apply Heq.
Qed.

Lemma registry_size_distinct_names_witness :
  exists self,
    __init__ [Weather; Stock; Weather'] = inr self /\
    size (registry self)
      = length (remove_dups (__name__ <$> [Weather; Stock; Weather'])) /\
    size (registry self) <= 3 /\
    (size (registry self) = 3 <->
     NoDup (__name__ <$> [Weather; Stock; Weather'])).
Proof.
  eexists. split; [reflexivity|].
  apply (registry_size_distinct_names [Weather; Stock; Weather']).
  reflexivity.
Defined.

(** ** Further properties of the decoder *)

Section DecoderMore.
Context {Ctx Inst : Type}.
Implicit Types (g : generator Ctx Inst) (self : ParallelBase Ctx Inst).
Implicit Types (calls : list ToolCall).

Lemma consume_suspended_decode_calls self ctx strict calls :
  forall g k,
    gi_self g = self -> gi_validation_context g = ctx -> gi_strict g = strict ->
    gi_frame g = Suspended calls ->
    consume k g =
      let r := decode_calls self ctx strict calls in
      if decide (k <= length r.1) then
        (take k r.1, None, set_frame g (Suspended (drop k calls)))
      else (r.1, Some r.2, set_frame g Closed).
Proof.
  induction calls as [|c rest IH]; intros g k Hs Hx Hst Hf.
  - simpl. destruct k as [|k].
    + simpl. by rewrite set_frame_same.
    + rewrite decide_False by (simpl; lia). by rewrite consume_S, next_end.
  - destruct k as [|k].
    { rewrite decide_True by lia. simpl. rewrite take_0.
      by rewrite set_frame_same. }
    rewrite consume_S. simpl decode_calls.
    destruct (registry self !! name (function c)) as [model|] eqn:Hreg.
    + destruct (model_validate_json model (arguments (function c)) ctx strict)
        as [e|v] eqn:Hval.
      * rewrite (next_invalid g c rest model e) by (subst; done). done.
      * rewrite (next_yield g c rest v)
          by (subst; try done; unfold decodes; eauto).
        rewrite (IH (set_frame g (Suspended rest)) k) by done.
        destruct (decode_calls self ctx strict rest) as [vs e]. simpl.
        destruct (decide (k <= length vs)).
        -- by rewrite decide_True by lia.
        -- by rewrite decide_False by lia.
    + rewrite (next_unknown g c rest) by (subst; done). done.
Qed.

(** An advance that does not yield closes the generator. *)
Lemma next_not_yield_closed g :
  (forall v, (next g).1 <> Yield v) -> gi_frame (next g).2 = Closed.
Proof.
  unfold next, resume.
  destruct (gi_frame g) as [|rest|]; simpl.
  - destruct (decide _) as [Hm|Hm]; [|done].
    destruct (response_tool_calls _) as [e|calls]; [done|].
    destruct calls as [|c rest]; simpl; [done|].
    destruct (registry_getitem _ _); simpl; [done|].
    destruct (model_validate_json _ _ _ _); simpl; [done|].
    intros H. by destruct (H i).
  - destruct rest as [|c rest]; simpl; [done|].
    destruct (registry_getitem _ _); simpl; [done|].
    destruct (model_validate_json _ _ _ _); simpl; [done|].
    intros H. by destruct (H i).
  - done.
Qed.

Lemma consume_ended_closed k :
  forall g, ended (consume k g) <> None -> gi_frame (consume k g).2 = Closed.
Proof.
  induction k as [|k IH]; intros g; [done|].
  rewrite consume_S. pose proof (next_not_yield_closed g) as Hc.
  destruct (next g) as [[v| |e] g'] eqn:Hn; simpl in *.
  - specialize (IH g'). destruct (consume k g') as [[??]?]. exact IH.
  - intros _. by apply Hc.
  - intros _. by apply Hc.
Qed.

(** Generators that differ only in their responses, the responses giving
    the same list of calls, give their consumers the same. *)
Lemma consume_same_calls k :
  forall g1 g2,
    gi_self g1 = gi_self g2 -> gi_mode g1 = gi_mode g2 ->
    gi_validation_context g1 = gi_validation_context g2 ->
    gi_strict g1 = gi_strict g2 -> gi_frame g1 = gi_frame g2 ->
    response_tool_calls (gi_response g1) = response_tool_calls (gi_response g2) ->
    received (consume k g1) = received (consume k g2) /\
    ended (consume k g1) = ended (consume k g2).
Proof.
  induction k as [|k IH]; intros g1 g2 Hs Hm Hx Hst Hf Hr; [done|].
  rewrite !consume_S. unfold next.
  assert (Hres : resume g1 = resume g2).
  { unfold resume. by rewrite Hs, Hm, Hx, Hst, Hf, Hr. }
  rewrite Hres. destruct (resume g2) as [[v| |e] f]; [|done|done].
  specialize (IH (set_frame g1 f) (set_frame g2 f) Hs Hm Hx Hst eq_refl Hr).
  destruct (consume k (set_frame g1 f)) as [[??]?].
  destruct (consume k (set_frame g2 f)) as [[??]?].
  unfold received, ended in *. simpl in *. destruct IH. by subst.
Qed.

End DecoderMore.

(** X7. In the parallel-tools mode the generator agrees with the recursion
    [decode_calls] over the calls of the response: a consumer that asks for
    [k] elements receives the first [k] instances of the longest prefix of
    calls that decode, with the sequence still open, as long as [k] does not
    exceed the length of that prefix; a consumer that asks for more receives
    that whole prefix and the exhaustion or the exception of the first call
    that fails. *)
Theorem reading_refines_decode_calls {Ctx Inst} (self : ParallelBase Ctx Inst)
    (response : Response) (calls : list ToolCall)
    (validation_context : option Ctx) (strict : option bool) (k : nat) :
  response_tool_calls response = inr calls ->
  exists g,
    from_response self response PARALLEL_TOOLS validation_context strict
      = inr g /\
    let r := decode_calls self validation_context strict calls in
    consume k g =
      if decide (k <= length r.1) then
        (take k r.1, None, after_yields g calls k)
      else (r.1, Some r.2, set_frame g Closed).
Proof.
  intros Hr. eexists. split; [reflexivity|].
  set (g := mkGenerator self response PARALLEL_TOOLS validation_context
              strict Created).
  destruct k as [|k].
  - simpl. by rewrite take_0.
  - rewrite (consume_created k g calls) by done.
    rewrite (consume_suspended_decode_calls self validation_context strict
               calls (set_frame g (Suspended calls)) (S k)) by done.
    unfold after_yields. by rewrite (decide_False (P := S k = 0)) by lia.
Qed.

Lemma reading_refines_decode_calls_witness :
  let calls :=
    [call "Weather" "Paris"; call "Stock" "ACME"; call "Unknown" "x";
     call "Weather" "Tokyo"] in
  decode_calls sample_base None None calls
    = (["Paris"; "ACME"], Failed (KeyError "Unknown")) /\
  exists g,
    from_response sample_base (response_of calls) PARALLEL_TOOLS None None
      = inr g /\
    let r := decode_calls sample_base None None calls in
    consume 3 g =
      if decide (3 <= length r.1) then
        (take 3 r.1, None, after_yields g calls 3)
      else (r.1, Some r.2, set_frame g Closed).
Proof.
  intros calls. split; [reflexivity|].
  apply (reading_refines_decode_calls sample_base (response_of calls) calls
           None None 3).
  reflexivity.
Defined.

(** X8. In the parallel-tools mode, a response without any choice makes the
    first advance raise the [IndexError] of [choices[0]]; no instance is
    yielded. *)
Theorem no_choice_IndexError {Ctx Inst} (self : ParallelBase Ctx Inst)
    (response : Response)
    (validation_context : option Ctx) (strict : option bool) (k : nat) :
  choices response = [] ->
  0 < k ->
  exists g,
    from_response self response PARALLEL_TOOLS validation_context strict
      = inr g /\
    consume k g
      = ([], Some (Failed (IndexError "list index out of range")),
         set_frame g Closed).
Proof.
  intros Hc Hk. eexists. split; [reflexivity|].
  destruct k as [|k]; [lia|]. rewrite consume_S.
  unfold next, resume, response_tool_calls. simpl. by rewrite Hc.
Qed.

Lemma no_choice_IndexError_witness :
  exists g,
    from_response sample_base (mkResponse []) PARALLEL_TOOLS None None
      = inr g /\
    consume 2 g
      = ([], Some (Failed (IndexError "list index out of range")),
         set_frame g Closed).
Proof.
  apply (no_choice_IndexError sample_base (mkResponse []) None None 2).
  - reflexivity.
  - lia.
Defined.

(** X9. Only the first choice of the response is read: two responses with
    the same first choice (or both with none) give a consumer the same
    instances and the same ending, whatever their other choices hold and
    whatever the mode. *)
Theorem only_first_choice_read {Ctx Inst} (self : ParallelBase Ctx Inst)
    (response1 response2 : Response) (mode : Mode)
    (validation_context : option Ctx) (strict : option bool) (k : nat) :
  choices response1 !! 0 = choices response2 !! 0 ->
  exists g1 g2,
    from_response self response1 mode validation_context strict = inr g1 /\
    from_response self response2 mode validation_context strict = inr g2 /\
    received (consume k g1) = received (consume k g2) /\
    ended (consume k g1) = ended (consume k g2).
Proof.
  intros Hc. eexists _, _. split; [reflexivity|]. split; [reflexivity|].
  apply consume_same_calls; try done.
  simpl. unfold response_tool_calls, getitem. by rewrite Hc.
Qed.

Lemma only_first_choice_read_witness :
  let first := mkChoice (mkMessage [call "Weather" "Paris"]) in
  let other := mkChoice (mkMessage [call "Unknown" "x"]) in
  exists g1 g2,
    from_response sample_base (mkResponse [first]) PARALLEL_TOOLS None None
      = inr g1 /\
    from_response sample_base (mkResponse [first; other]) PARALLEL_TOOLS
      None None = inr g2 /\
    received (consume 5 g1) = received (consume 5 g2) /\
    ended (consume 5 g1) = ended (consume 5 g2).
Proof.
  intros first other.
  apply (only_first_choice_read sample_base (mkResponse [first])
           (mkResponse [first; other]) PARALLEL_TOOLS None None 5).
  reflexivity.
Defined.

(** X10. The end of the sequence is final.  Once a reading has ended, by
    exhaustion or by an exception, the generator is closed: every later
    reading of it receives no instance and meets [StopIteration], so the
    calls after a failing call are never decoded. *)
Theorem ended_is_final {Ctx Inst} (g : generator Ctx Inst) (k k' : nat) :
  ended (consume k g) <> None ->
  gi_frame (consume k g).2 = Closed /\
  received (consume k' (consume k g).2) = [] /\
  (0 < k' -> ended (consume k' (consume k g).2) = Some Exhausted).
Proof.
  intros Hend. apply consume_ended_closed in Hend.
  split; [done|]. rewrite (consume_closed k' _ Hend).
  split; [done|]. intros Hk'. unfold ended. simpl.
  by rewrite decide_False by lia.
Qed.

Lemma ended_is_final_witness :
  let g := mkGenerator sample_base
             (response_of [call "Unknown" "x"; call "Weather" "Paris"])
             PARALLEL_TOOLS None None Created in
  gi_frame (consume 1 g).2 = Closed /\
  received (consume 4 (consume 1 g).2) = [] /\
  (0 < 4 -> ended (consume 4 (consume 1 g).2) = Some Exhausted).
Proof.
  intros g. apply (ended_is_final g 1 4). discriminate.
Defined.

(** ** The typehint entry points *)

Section Comprehension.
Context {A B : Type}.
Implicit Types (f : A -> result B) (l : list A) (bs : list B).

Lemma comprehension_inr f l bs :
  comprehension f l = inr bs <-> Forall2 (fun a b => f a = inr b) l bs.
Proof.
  revert bs. induction l as [|a l IH]; intros bs; simpl.
  - split; [intros [= <-]; constructor | by intros ->%Forall2_nil_inv_l].
  - destruct (f a) as [e|b] eqn:Hfa; simpl.
    + split; [done|]. intros H.
      apply Forall2_cons_inv_l in H as (b & bs' & Hb & _ & _).
      simpl in Hb. rewrite Hfa in Hb. discriminate Hb.
    + destruct (comprehension f l) as [e|bs'] eqn:Hl; simpl.
      * split; [done|]. intros H.
        apply Forall2_cons_inv_l in H as (b' & bs' & _ & Hbs' & _).
        by apply IH in Hbs'.
      * split.
        -- intros [= <-]. constructor; [done|]. by apply IH.
        -- intros H.
           apply Forall2_cons_inv_l in H as (b' & bs'' & Hb' & Hbs'' & ->).
           apply IH in Hbs''. simpl in Hb'. rewrite Hfa in Hb'.
           by injection Hb' as <-; injection Hbs'' as <-.
Qed.

Lemma comprehension_inl f pre a post e :
  Forall (fun a' => exists b, f a' = inr b) pre ->
  f a = inl e ->
  comprehension f (pre ++ a :: post) = inl e.
Proof.
  intros Hpre Ha. induction Hpre as [|a' pre [b Hb] _ IH]; simpl.
  - by rewrite Ha.
  - by rewrite Hb, IH.
Qed.

End Comprehension.

(** X11. For a typehint [Iterable] over a union of at least one member, the
    members bearing pairwise distinct names as candidate types,
    [ParallelModel] gives a registry whose tuple of types is the members in
    declared order, and under which a call decodes to an instance exactly
    when some member bears the call's name and validates the call's payload
    to that instance. *)
Theorem ParallelModel_union_decodes {Ctx Inst} format
    (candidate : pytype -> Model Ctx Inst) (s : union_syntax)
    (ts : list pytype) :
  ts <> [] ->
  NoDup (__name__ <$> (candidate <$> ts)) ->
  exists self,
    ParallelModel format candidate (iterable_of (union_of s ts)) = inr self /\
    models self = candidate <$> ts /\
    forall validation_context strict c v,
      decodes self validation_context strict c v <->
      exists t,
        t ∈ ts /\ __name__ (candidate t) = name (function c) /\
        model_validate_json (candidate t) (arguments (function c))
          validation_context strict = inr v.
Proof.
  intros Hne Hnd.
  exists (mkParallelBase (candidate <$> ts) (dict_of_models (candidate <$> ts))).
  split_and!.
  - unfold ParallelModel.
    assert (Hts : get_types_array format (iterable_of (union_of s ts)) = inr ts)
      by (by destruct s).
    rewrite Hts. simpl. apply __init___nonempty. by destruct ts.
  - reflexivity.
  - intros ctx strict c v. unfold decodes. simpl. split.
    + intros (model & Hreg & Hval).
      apply dict_of_models_key in Hreg as [Hname Hin].
      apply list_elem_of_fmap in Hin as (t & -> & Ht). eauto.
    + intros (t & Ht & Hname & Hval). exists (candidate t). split; [|done].
      rewrite <- Hname.
      apply list_elem_of_split in Ht as (pre & post & ->).
      rewrite fmap_app, fmap_cons. apply dict_of_models_last.
      rewrite !fmap_app, !fmap_cons in Hnd.
      apply NoDup_app in Hnd as (_ & _ & Hnd).
      by apply NoDup_cons in Hnd as [? _].
Qed.

Lemma ParallelModel_union_decodes_witness :
  exists self,
    ParallelModel format_name sample_candidate
      (iterable_of (union_of TypingUnion [Class "Weather"; Class "Stock"]))
      = inr self /\
    models self = [Weather; Stock] /\
    forall validation_context strict c v,
      decodes self validation_context strict c v <->
      exists t,
        t ∈ [Class "Weather"; Class "Stock"] /\
        __name__ (sample_candidate t) = name (function c) /\
        model_validate_json (sample_candidate t) (arguments (function c))
          validation_context strict = inr v.
Proof.
  apply (ParallelModel_union_decodes format_name sample_candidate TypingUnion
           [Class "Weather"; Class "Stock"]).
  - discriminate.
  - simpl. compute_done.
Defined.

(** X13. [handle_parallel_model] returns a list of descriptors exactly when
    the extractor returns a tuple and the schema of every type in it can be
    built; the list then has one descriptor per type, in the order of the
    tuple, each being [type: function, function: the schema of that
    type]. *)
Theorem handle_parallel_model_descriptors {Schema} format
    (openai_schema : pytype -> result Schema) (typehint : pytype)
    (ds : list (list (string * value Schema))) :
  handle_parallel_model format openai_schema typehint = inr ds <->
  exists ts,
    get_types_array format typehint = inr ts /\
    Forall2
      (fun t d =>
         exists schema,
           openai_schema t = inr schema /\
           d = [("type", Str "function"); ("function", Obj schema)])
      ts ds.
Proof.
  unfold handle_parallel_model.
  destruct (get_types_array format typehint) as [e|ts]; simpl.
  - split; [done|]. by intros (ts & [=] & _).
  - rewrite comprehension_inr. split.
    + intros H. exists ts. split; [done|].
      eapply Forall2_impl; [exact H|]. intros t d. simpl.
      destruct (openai_schema t) as [e|schema]; simpl; [done|].
      intros [= <-]. eauto.
    + intros (ts' & [= <-] & H).
      eapply Forall2_impl; [exact H|]. intros t d (schema & -> & ->). done.
Qed.

(** X14. The schemas are built in the order of the types, and the first one
    that cannot be built ends [handle_parallel_model] with its exception,
    whatever the later types are. *)
Theorem handle_parallel_model_first_failure {Schema} format
    (openai_schema : pytype -> result Schema) (typehint : pytype)
    (pre post : list pytype) (t : pytype) (e : exn) :
  get_types_array format typehint = inr (pre ++ t :: post)%list ->
  Forall (fun t' => exists schema, openai_schema t' = inr schema) pre ->
  openai_schema t = inl e ->
  handle_parallel_model format openai_schema typehint = inl e.
Proof.
  intros Hts Hpre Ht. unfold handle_parallel_model. rewrite Hts. simpl.
  apply comprehension_inl.
  - eapply Forall_impl; [exact Hpre|]. intros t' [schema ->]. simpl. eauto.
  - by rewrite Ht.
Qed.

Lemma handle_parallel_model_first_failure_witness :
  handle_parallel_model format_name sample_schema
    (iterable_of
       (union_of BarOperator
          [Class "Weather"; Generic (OtherOrigin "list") [Class "Stock"];
           Class "Stock"]))
    = inl (TypeError "Class must be a subclass of pydantic.BaseModel").
Proof.
  apply (handle_parallel_model_first_failure format_name sample_schema _
           [Class "Weather"] [Class "Stock"]
           (Generic (OtherOrigin "list") [Class "Stock"])).
  - reflexivity.
  - repeat constructor. by exists "schema of Weather".
  - reflexivity.
Defined.

(** X15. The two entry points agree on a typehint.  When both succeed, the
    descriptors of [handle_parallel_model] and the tuple of types of the
    registry of [ParallelModel] have the same length and go together
    position by position: each descriptor carries the schema of the member
    that the registry holds, as a candidate type, at that position. *)
Theorem entry_points_agree {Ctx Inst Schema} format
    (candidate : pytype -> Model Ctx Inst)
    (openai_schema : pytype -> result Schema) (typehint : pytype)
    (ds : list (list (string * value Schema)))
    (self : ParallelBase Ctx Inst) :
  handle_parallel_model format openai_schema typehint = inr ds ->
  ParallelModel format candidate typehint = inr self ->
  length ds = length (models self) /\
  Forall2
    (fun d model =>
       exists t schema,
         model = candidate t /\ openai_schema t = inr schema /\
         d = tool_descriptor schema)
    ds (models self).
Proof.
  unfold handle_parallel_model, ParallelModel.
  destruct (get_types_array format typehint) as [e|ts]; simpl; [done|].
  rewrite comprehension_inr. intros Hds Hpm.
  apply __init___inv in Hpm as (_ & -> & _).
  assert (H : Forall2
    (fun d model =>
       exists t schema,
         model = candidate t /\ openai_schema t = inr schema /\
         d = tool_descriptor schema)
    ds (candidate <$> ts)).
  { apply Forall2_fmap_r, Forall2_flip.
    eapply Forall2_impl; [exact Hds|]. intros t d. simpl.
    destruct (openai_schema t) as [e|schema] eqn:Hs; simpl; [done|].
    intros [= <-]. eauto. }
  split; [by eapply Forall2_length|done].
Qed.

Lemma entry_points_agree_witness :
  let ds := [tool_descriptor "schema of Weather";
             tool_descriptor "schema of Stock"] in
  length ds = length (models sample_base) /\
  Forall2
    (fun d model =>
       exists t schema,
         model = sample_candidate t /\ sample_schema t = inr schema /\
         d = tool_descriptor schema)
    ds (models sample_base).
Proof.
  intros ds.
  apply (entry_points_agree format_name sample_candidate sample_schema
           (iterable_of (union_of TypingUnion [Class "Weather"; Class "Stock"]))
           ds sample_base).
  - reflexivity.
  - reflexivity.
Defined.

Lemma comprehension_inl_inv {A B} (f : A -> result B) (l : list A) (e : exn) :
  comprehension f l = inl e -> exists a, a ∈ l /\ f a = inl e.
Proof.
  induction l as [|a l IH]; simpl; [done|].
  destruct (f a) as [e'|b] eqn:Hfa; simpl.
  - intros [= <-]. exists a. split; [apply list_elem_of_here|done].
  - destruct (comprehension f l) as [e'|bs]; simpl; [|done].
    intros [= <-]. destruct (IH eq_refl) as (a' & Hin & Ha').
    exists a'. split; [by apply list_elem_of_further|done].
Qed.

(** X16. [handle_parallel_model] raises only the exceptions of
    [get_types_array], under the same conditions, or the exception that
    building the schema of one of the extracted types raised. *)
Theorem handle_parallel_model_errors {Schema} format
    (openai_schema : pytype -> result Schema) (typehint : pytype) (e : exn) :
  handle_parallel_model format openai_schema typehint = inl e ->
  (get_origin typehint <> Some Iterable /\
   e = TypeError
         ("Model should be with Iterable instead if " ++ format typehint)) \/
  (get_origin typehint = Some Iterable /\ get_args typehint = [] /\
   e = IndexError "tuple index out of range") \/
  (exists ts t,
     get_types_array format typehint = inr ts /\ t ∈ ts /\
     openai_schema t = inl e).
Proof.
  unfold handle_parallel_model.
  destruct (get_types_array format typehint) as [e'|ts] eqn:Hts; simpl.
  - intros [= <-]. revert Hts. unfold get_types_array. simpl.
    destruct (decide (get_origin typehint <> Some Iterable)) as [Ho|Ho].
    + intros [= <-]. by left.
    + apply dec_stable in Ho.
      destruct (get_args typehint) as [|arg0 more] eqn:Hargs.
      * intros [= <-]. right. by left.
      * simpl. repeat case_decide; discriminate.
  - intros (t & Hin & Ht)%comprehension_inl_inv. right. right.
    exists ts, t. split_and!; [done|done|]. simpl in Ht.
    destruct (openai_schema t) as [e'|schema]; simpl in Ht;
      [by injection Ht as <- | discriminate Ht].
Qed.

Lemma handle_parallel_model_errors_witness :
  let typehint := Generic Iterable [] in
  let e := IndexError "tuple index out of range" in
  (get_origin typehint <> Some Iterable /\
   e = TypeError
         ("Model should be with Iterable instead if " ++ format_name typehint)) \/
  (get_origin typehint = Some Iterable /\ get_args typehint = [] /\
   e = IndexError "tuple index out of range") \/
  (exists ts t,
     get_types_array format_name typehint = inr ts /\ t ∈ ts /\
     sample_schema t = inl e).
Proof.
  intros typehint e.
  apply (handle_parallel_model_errors format_name sample_schema typehint e).
  reflexivity.
Defined.
